(** * vscode-flix language server: the diagnostics bookkeeping of
      [server/src/server.ts], its listener registrations, and the job
      engine described for [./engine/jobs].

    The server keeps one module-level [Set<string>], [fileUrisWithErrors],
    and one transport, [connection].  Both are mutated by the two exported
    functions [sendDiagnostics] and [clearDiagnostics]; they are modelled
    here by explicit state passing over a record that holds the set and the
    log of [connection.sendDiagnostics] calls.  The initialization handlers
    and [sendNotification] act on a session record around it. *)

From Stdlib Require Import List String Bool Arith Lia.
Import ListNotations.
Open Scope string_scope.
Open Scope list_scope.

(** ** Protocol data (vscode-languageserver's types, as far as the server
       touches them) *)

Record Position := { line : nat; character : nat }.

Record Range := { range_start : Position; range_end : Position }.

Inductive DiagnosticSeverity :=
| SeverityError
| SeverityWarning
| SeverityInformation
| SeverityHint.

Record Diagnostic := {
  range : Range;
  message : string;
  severity : option DiagnosticSeverity
}.

Record PublishDiagnosticsParams := {
  uri : string;
  diagnostics : list Diagnostic
}.

(** ** JavaScript's [Set<string>]

    A JS [Set] iterates in insertion order and [add] of a member changes
    nothing, so the set is the list of its entries in insertion order. *)

Module JSSet.

Definition t := list string.

Definition empty : t := [].

Definition has (x : string) (s : t) : bool := existsb (String.eqb x) s.

Definition add (x : string) (s : t) : t :=
  if has x s then s else s ++ [x].

Definition clear (_ : t) : t := [].

Fixpoint uniq (s : t) : bool :=
  match s with
  | [] => true
  | x :: s' => negb (has x s') && uniq s'
  end.

End JSSet.

(** ** The server's mutable state *)

Record Server := {
  (* let fileUrisWithErrors: Set<string> = new Set() *)
  fileUrisWithErrors : JSSet.t;
  (* the calls of connection.sendDiagnostics so far, oldest first *)
  connection : list PublishDiagnosticsParams
}.

Definition initial : Server :=
  {| fileUrisWithErrors := JSSet.empty; connection := [] |}.

(** [sendDiagnostics (params)]:
    [fileUrisWithErrors.add(params.uri); connection.sendDiagnostics(params)] *)
Definition sendDiagnostics (params : PublishDiagnosticsParams) (st : Server)
  : Server :=
  {| fileUrisWithErrors := JSSet.add (uri params) (fileUrisWithErrors st);
     connection := connection st ++ [params] |}.

(** [Set.prototype.forEach] on the live set [fileUrisWithErrors]: the
    callback runs on the entry at the cursor and the cursor moves on until it
    is past the last entry of the set as it is then, so that entries the
    callback adds are visited too.  [fuel] bounds the number of visits. *)
Fixpoint forEach_from (fuel cursor : nat)
    (callback : string -> Server -> Server) (st : Server) : Server :=
  match fuel with
  | O => st
  | S fuel' =>
      match nth_error (fileUrisWithErrors st) cursor with
      | None => st
      | Some u => forEach_from fuel' (S cursor) callback (callback u st)
      end
  end.

(** The callback of [clearDiagnostics]:
    [(uri) => sendDiagnostics({ uri, diagnostics: [] })] *)
Definition retraction (u : string) : PublishDiagnosticsParams :=
  {| uri := u; diagnostics := [] |}.

Definition retract (u : string) (st : Server) : Server :=
  sendDiagnostics (retraction u) st.

(** [clearDiagnostics ()]:
    [fileUrisWithErrors.forEach(uri => sendDiagnostics({uri, diagnostics: []}));
     fileUrisWithErrors.clear()].
    The callback only adds members, so the set keeps its size during the
    iteration and one unit of fuel per entry is enough
    ([forEach_from_fuel_enough] below). *)
Definition clearDiagnostics (st : Server) : Server :=
  let st' :=
    forEach_from (List.length (fileUrisWithErrors st)) 0 retract st in
  {| fileUrisWithErrors := JSSet.clear (fileUrisWithErrors st');
     connection := connection st' |}.

(** ** Sequences of calls of the two exported functions *)

Inductive Call :=
| CallSend (params : PublishDiagnosticsParams)
| CallClear.

Definition call (c : Call) (st : Server) : Server :=
  match c with
  | CallSend params => sendDiagnostics params st
  | CallClear => clearDiagnostics st
  end.

Definition run (calls : list Call) (st : Server) : Server :=
  fold_left (fun s c => call c s) calls st.

(** What the editor shows for [u]: the diagnostics of the most recent
    notification for [u] on the transport, if any. *)
Definition last_published (u : string) (log : list PublishDiagnosticsParams)
  : option (list Diagnostic) :=
  option_map diagnostics
    (find (fun p => String.eqb (uri p) u) (rev log)).

(** The notifications for [u] in a stretch of the transport log. *)
Definition notifications_for (u : string)
    (log : list PublishDiagnosticsParams) : list PublishDiagnosticsParams :=
  filter (fun p => String.eqb (uri p) u) log.

Definition is_clear (c : Call) : bool :=
  match c with CallClear => true | CallSend _ => false end.

Definition sends_for (u : string) (c : Call) : bool :=
  match c with
  | CallSend p => String.eqb (uri p) u
  | CallClear => false
  end.

(** The notifications sent on the way from [before] to [after]. *)
Definition sent_since (before after : Server) : list PublishDiagnosticsParams :=
  skipn (List.length (connection before)) (connection after).

(** Sample data for the scenarios. *)
Definition err1 : Diagnostic :=
  {| range := {| range_start := {| line := 3; character := 0 |};
                 range_end := {| line := 3; character := 12 |} |};
     message := "Type mismatch";
     severity := Some SeverityError |}.

Definition publish (u : string) (ds : list Diagnostic) : Call :=
  CallSend {| uri := u; diagnostics := ds |}.

(** ** Listener registrations of [server.ts]

    The handlers themselves live in [./handlers], which this file does not
    have; what [server.ts] fixes is which handler each listener gets. *)

Module Routing.

(* the members of [jobs.Request] that server.ts names *)
Inductive Request := internalReady | apiAddUri | apiRemUri.

Inductive Listener :=
| onNotification (request : Request)
| onExit
| onDidChangeContent
| onDidSave
| onHover
| onDefinition.

Inductive Handler :=
| handleReady
| handleAddUri
| handleRemUri
| handleExit
| handleChangeContent
| handleHover
| handleGotoDefinition.

Definition Request_eqb (a b : Request) : bool :=
  match a, b with
  | internalReady, internalReady
  | apiAddUri, apiAddUri
  | apiRemUri, apiRemUri => true
  | _, _ => false
  end.

Definition Listener_eqb (a b : Listener) : bool :=
  match a, b with
  | onNotification r, onNotification r' => Request_eqb r r'
  | onExit, onExit
  | onDidChangeContent, onDidChangeContent
  | onDidSave, onDidSave
  | onHover, onHover
  | onDefinition, onDefinition => true
  | _, _ => false
  end.

(** The registrations, in the order of the source. *)
Definition registrations : list (Listener * Handler) :=
  [ (onNotification internalReady, handleReady);
    (onNotification apiAddUri, handleAddUri);
    (onNotification apiRemUri, handleRemUri);
    (onExit, handleExit);
    (onDidChangeContent, handleChangeContent);
    (onDidSave, handleChangeContent);
    (onHover, handleHover);
    (onDefinition, handleGotoDefinition) ].

Definition registered (l : Listener) : option Handler :=
  option_map snd (find (fun r => Listener_eqb (fst r) l) registrations).

Section Fire.

(* the event a listener delivers, the state the handlers act on, and the
   handlers of [./handlers] *)
Variables Event World : Type.
Variable handlers : Handler -> Event -> World -> World.

(** An event on listener [l] runs the handler registered for [l]. *)
Definition fire (l : Listener) (e : Event) (w : World) : World :=
  match registered l with
  | Some h => handlers h e w
  | None => w
  end.

End Fire.

End Routing.

(** ** The job engine

    [server.ts] imports [./engine/jobs] and [./handlers] but only names
    request kinds and handlers of them; the engine's code is not part of
    these sources. *)

Module JobEngine.

(** Modelled from the spec: the request kinds of [./engine/jobs], missing
    here: "RequestKind is one of: internalReady, apiAddUri, apiRemUri,
    documentChanged, documentSaved, hover, gotoDefinition, shutdown". *)
Inductive RequestKind :=
| internalReady
| apiAddUri
| apiRemUri
| documentChanged
| documentSaved
| hover
| gotoDefinition
| shutdown.

(** Modelled from the spec: the engine's lifecycle state, missing here:
    "EngineState: one of {NotReady, Ready, Busy, Exited}". *)
Inductive EngineState := NotReady | Ready | Busy | Exited.

(** Modelled from the spec: what a job resolves to, missing here: the
    compiler's answer, or one of the failures CompilerUnavailable and
    ProtocolError. *)
Inductive JobResult :=
| Completed (result : string)
| CompilerUnavailable
| ProtocolError.

(** Modelled from the spec: the Job of [./engine/jobs], which is missing
    here: "{ kind: RequestKind, payload, id }", with the payload's key (the
    URI) kept apart from the rest of the payload. *)
Record Job := {
  kind : RequestKind;
  key : string;
  payload : string;
  id : nat
}.

(** Modelled from the spec: the engine's state, missing here: the
    EngineState, the PendingQueue, the jobs outstanding against the Compiler
    Proxy (InFlight: dispatched, no result yet), and the results handed to
    the callers waiting on a job id. *)
Record Engine := {
  state : EngineState;
  PendingQueue : list Job;
  InFlight : list Job;
  resolved : list (nat * JobResult)
}.

(** Modelled from the spec: the engine at server start, missing here: not
    ready, nothing queued, nothing dispatched. *)
Definition init : Engine :=
  {| state := NotReady; PendingQueue := []; InFlight := []; resolved := [] |}.

Definition RequestKind_eqb (a b : RequestKind) : bool :=
  match a, b with
  | internalReady, internalReady
  | apiAddUri, apiAddUri
  | apiRemUri, apiRemUri
  | documentChanged, documentChanged
  | documentSaved, documentSaved
  | hover, hover
  | gotoDefinition, gotoDefinition
  | shutdown, shutdown => true
  | _, _ => false
  end.

(** Modelled from the spec: which kinds coalesce, missing here: "coalescable
    kinds (document recompiles)". *)
Definition coalescable (k : RequestKind) : bool :=
  match k with
  | documentChanged | documentSaved => true
  | _ => false
  end.

(** Modelled from the spec: the identity of coalescable jobs, missing here:
    "the pair (kind, payload-key)". *)
Definition same_key (j j' : Job) : bool :=
  RequestKind_eqb (kind j) (kind j') && String.eqb (key j) (key j').

(** Modelled from the spec: the replacement in place of [submit], missing
    here: the queued job of [j]'s key gives its place to [j]. *)
Fixpoint supersede (j : Job) (q : list Job) : option (list Job) :=
  match q with
  | [] => None
  | j' :: q' =>
      if same_key j j' then Some (j :: q')
      else option_map (cons j') (supersede j q')
  end.

(** Modelled from the spec: [submit], missing here: "enqueues a job. If
    job.kind is coalescable and an equivalent-key job already sits in
    PendingQueue, it is replaced in place rather than appended". *)
Definition submit (j : Job) (e : Engine) : Engine :=
  let q :=
    if coalescable (kind j) then
      match supersede j (PendingQueue e) with
      | Some q' => q'
      | None => PendingQueue e ++ [j]
      end
    else PendingQueue e ++ [j] in
  {| state := state e; PendingQueue := q;
     InFlight := InFlight e; resolved := resolved e |}.

(** Modelled from the spec: [drive], missing here: "pops the head of
    PendingQueue, moves it to InFlight, and dispatches it to the Compiler
    Proxy. No-op if the queue is empty or the engine is not Ready"; the
    engine is Busy around each dispatched job. *)
Definition drive (e : Engine) : Engine :=
  match state e, PendingQueue e with
  | Ready, j :: q =>
      {| state := Busy; PendingQueue := q;
         InFlight := InFlight e ++ [j]; resolved := resolved e |}
  | _, _ => e
  end.

(** Modelled from the spec: [onResult], missing here: "matched against
    InFlight; resolves any caller waiting on that job id with result,
    clears InFlight, and calls drive() again. If id does not match InFlight
    (stale/duplicate), the result is discarded". *)
Definition onResult (i : nat) (r : JobResult) (e : Engine) : Engine :=
  if existsb (fun j => Nat.eqb (id j) i) (InFlight e) then
    drive {| state := match state e with Busy => Ready | s => s end;
             PendingQueue := PendingQueue e;
             InFlight := [];
             resolved := resolved e ++ [(i, r)] |}
  else e.

(** Modelled from the spec: [onCompilerExit], missing here: "sets state to
    Exited, fails the InFlight job (if any) with a CompilerUnavailable
    error, and fails every remaining queued job the same way without
    dispatching them". *)
Definition onCompilerExit (e : Engine) : Engine :=
  {| state := Exited; PendingQueue := []; InFlight := [];
     resolved :=
       resolved e ++
       map (fun j => (id j, CompilerUnavailable))
           (InFlight e ++ PendingQueue e) |}.

(** Modelled from the spec: the readiness notification, missing here:
    "EngineState transitions NotReady -> Ready on receiving the compiler's
    readiness notification". *)
Definition onReady (e : Engine) : Engine :=
  match state e with
  | NotReady =>
      {| state := Ready; PendingQueue := PendingQueue e;
         InFlight := InFlight e; resolved := resolved e |}
  | _ => e
  end.

(** Modelled from the spec: the events the engine reacts to, missing here:
    submit, dispatch ([drive]), result, the compiler's readiness
    notification and its exit. *)
Inductive Event :=
| Submit (j : Job)
| Dispatch
| Result (i : nat) (r : JobResult)
| CompilerReady
| CompilerExit.

Definition step (e : Engine) (ev : Event) : Engine :=
  match ev with
  | Submit j => submit j e
  | Dispatch => drive e
  | Result i r => onResult i r e
  | CompilerReady => onReady e
  | CompilerExit => onCompilerExit e
  end.

Definition run (events : list Event) (e : Engine) : Engine :=
  fold_left step events e.

(** The invariant the engine keeps: jobs are outstanding only while it is
    Busy, and then exactly one. *)
Definition consistent (e : Engine) : Prop :=
  match state e with
  | Busy => List.length (InFlight e) = 1
  | _ => InFlight e = []
  end.

End JobEngine.

(** ** Initialization and the rest of the connection

    [onInitialize] and [onInitialized] share three module-level flags;
    [sendNotification] forwards to the transport.  Besides the
    [sendDiagnostics] log of [Server], the transport is seen through the
    replies to the initialize request, the registrations made with the
    client, the workspace-folder listeners, the console and the
    notifications sent. *)

Module ClientCapabilities.

Record Workspace := {
  configuration : option bool;
  workspaceFolders : option bool
}.

Record PublishDiagnostics := { relatedInformation : option bool }.

Record TextDocument := { publishDiagnostics : option PublishDiagnostics }.

Record t := {
  workspace : option Workspace;
  textDocument : option TextDocument
}.

End ClientCapabilities.

Module InitializeParams.

Record t := { capabilities : ClientCapabilities.t }.

End InitializeParams.

Inductive TextDocumentSyncKind := SyncNone | SyncFull | SyncIncremental.

Module ServerCapabilities.

Record CompletionOptions := { resolveProvider : bool }.

Record WorkspaceFolders := { supported : bool }.

Record Workspace := { workspaceFolders : WorkspaceFolders }.

Record t := {
  textDocumentSync : TextDocumentSyncKind;
  completionProvider : CompletionOptions;
  hoverProvider : bool;
  definitionProvider : bool;
  workspace : option Workspace
}.

End ServerCapabilities.

Module InitializeResult.

Record t := { capabilities : ServerCapabilities.t }.

End InitializeResult.

(** [!!x] for an optional boolean: [undefined] and [false] are falsy. *)
Definition truthy (x : option bool) : bool :=
  match x with
  | Some b => b
  | None => false
  end.

(** [!!(o && f(o))] for an optional object [o]: [undefined] is falsy and
    ends the conjunction, an object is truthy and the value is [f(o)]'s. *)
Definition and_then {A : Type} (o : option A) (f : A -> bool) : bool :=
  match o with
  | Some a => f a
  | None => false
  end.

(* what connection.client.register is called with *)
Inductive RegistrationType := DidChangeConfigurationNotification.

Record Session := {
  hasConfigurationCapability : bool;
  hasWorkspaceFolderCapability : bool;
  hasDiagnosticRelatedInformationCapability : bool;
  (* the results returned to initialize requests, oldest first *)
  replies : list InitializeResult.t;
  (* the calls of connection.client.register *)
  client_register : list RegistrationType;
  (* the listeners given to connection.workspace.onDidChangeWorkspaceFolders;
     each is the same closure, so their number is kept *)
  workspaceFoldersListeners : nat;
  (* the lines of connection.console.log *)
  console_log : list string;
  (* the calls of connection.sendNotification: type and payload *)
  sent_notifications : list (string * option string);
  (* fileUrisWithErrors and the calls of connection.sendDiagnostics *)
  diagnostics_state : Server
}.

(** The module as loaded: the three flags are [false], nothing was sent. *)
Definition session0 : Session :=
  {| hasConfigurationCapability := false;
     hasWorkspaceFolderCapability := false;
     hasDiagnosticRelatedInformationCapability := false;
     replies := [];
     client_register := [];
     workspaceFoldersListeners := 0;
     console_log := [];
     sent_notifications := [];
     diagnostics_state := initial |}.

(** The handler given to [connection.onInitialize]: sets the three flags
    from [params.capabilities] and returns the server's capabilities, with
    [workspace.workspaceFolders.supported] when the client has workspace
    folders. *)
Definition onInitialize (params : InitializeParams.t) (s : Session) : Session :=
  let capabilities := InitializeParams.capabilities params in
  let hasConfiguration :=
    and_then (ClientCapabilities.workspace capabilities)
      (fun w => truthy (ClientCapabilities.configuration w)) in
  let hasWorkspaceFolder :=
    and_then (ClientCapabilities.workspace capabilities)
      (fun w => truthy (ClientCapabilities.workspaceFolders w)) in
  let hasDiagnosticRelatedInformation :=
    and_then (ClientCapabilities.textDocument capabilities)
      (fun t =>
         and_then (ClientCapabilities.publishDiagnostics t)
           (fun d => truthy (ClientCapabilities.relatedInformation d))) in
  let result :=
    {| ServerCapabilities.textDocumentSync := SyncIncremental;
       ServerCapabilities.completionProvider :=
         {| ServerCapabilities.resolveProvider := true |};
       ServerCapabilities.hoverProvider := true;
       ServerCapabilities.definitionProvider := true;
       ServerCapabilities.workspace :=
         if hasWorkspaceFolder then
           Some {| ServerCapabilities.workspaceFolders :=
                     {| ServerCapabilities.supported := true |} |}
         else None |} in
  {| hasConfigurationCapability := hasConfiguration;
     hasWorkspaceFolderCapability := hasWorkspaceFolder;
     hasDiagnosticRelatedInformationCapability :=
       hasDiagnosticRelatedInformation;
     replies := replies s ++ [ {| InitializeResult.capabilities := result |} ];
     client_register := client_register s;
     workspaceFoldersListeners := workspaceFoldersListeners s;
     console_log := console_log s;
     sent_notifications := sent_notifications s;
     diagnostics_state := diagnostics_state s |}.

(** The handler given to [connection.onInitialized]: registers for
    configuration changes if [hasConfigurationCapability], and listens to
    workspace folder changes if [hasWorkspaceFolderCapability]. *)
Definition onInitialized (s : Session) : Session :=
  {| hasConfigurationCapability := hasConfigurationCapability s;
     hasWorkspaceFolderCapability := hasWorkspaceFolderCapability s;
     hasDiagnosticRelatedInformationCapability :=
       hasDiagnosticRelatedInformationCapability s;
     replies := replies s;
     client_register :=
       if hasConfigurationCapability s
       then client_register s ++ [DidChangeConfigurationNotification]
       else client_register s;
     workspaceFoldersListeners :=
       if hasWorkspaceFolderCapability s
       then S (workspaceFoldersListeners s)
       else workspaceFoldersListeners s;
     console_log := console_log s;
     sent_notifications := sent_notifications s;
     diagnostics_state := diagnostics_state s |}.

Definition workspaceFolderChangeMessage : string :=
  "Workspace folder change event received.".

(** A workspace folder change of the client: every listener logs its line. *)
Definition didChangeWorkspaceFolders (s : Session) : Session :=
  {| hasConfigurationCapability := hasConfigurationCapability s;
     hasWorkspaceFolderCapability := hasWorkspaceFolderCapability s;
     hasDiagnosticRelatedInformationCapability :=
       hasDiagnosticRelatedInformationCapability s;
     replies := replies s;
     client_register := client_register s;
     workspaceFoldersListeners := workspaceFoldersListeners s;
     console_log :=
       console_log s ++
       repeat workspaceFolderChangeMessage (workspaceFoldersListeners s);
     sent_notifications := sent_notifications s;
     diagnostics_state := diagnostics_state s |}.

(** [sendNotification (notificationType, payload?)]:
    [connection.sendNotification(notificationType, payload)] *)
Definition sendNotification (notificationType : string)
    (payload : option string) (s : Session) : Session :=
  {| hasConfigurationCapability := hasConfigurationCapability s;
     hasWorkspaceFolderCapability := hasWorkspaceFolderCapability s;
     hasDiagnosticRelatedInformationCapability :=
       hasDiagnosticRelatedInformationCapability s;
     replies := replies s;
     client_register := client_register s;
     workspaceFoldersListeners := workspaceFoldersListeners s;
     console_log := console_log s;
     sent_notifications :=
       sent_notifications s ++ [(notificationType, payload)];
     diagnostics_state := diagnostics_state s |}.

(** The two diagnostics functions act on the session's diagnostics state. *)
Definition on_diagnostics (f : Server -> Server) (s : Session) : Session :=
  {| hasConfigurationCapability := hasConfigurationCapability s;
     hasWorkspaceFolderCapability := hasWorkspaceFolderCapability s;
     hasDiagnosticRelatedInformationCapability :=
       hasDiagnosticRelatedInformationCapability s;
     replies := replies s;
     client_register := client_register s;
     workspaceFoldersListeners := workspaceFoldersListeners s;
     console_log := console_log s;
     sent_notifications := sent_notifications s;
     diagnostics_state := f (diagnostics_state s) |}.

(** What can happen to the server: requests and notifications of the
    client, and calls of the exported functions by the other modules. *)
Inductive ServerEvent :=
| Initialize (params : InitializeParams.t)
| Initialized
| DidChangeWorkspaceFolders
| SendNotification (notificationType : string) (payload : option string)
| Diagnostics (c : Call).

Definition session_step (s : Session) (ev : ServerEvent) : Session :=
  match ev with
  | Initialize params => onInitialize params s
  | Initialized => onInitialized s
  | DidChangeWorkspaceFolders => didChangeWorkspaceFolders s
  | SendNotification t p => sendNotification t p s
  | Diagnostics c => on_diagnostics (call c) s
  end.

Definition session_run (events : list ServerEvent) (s : Session) : Session :=
  fold_left session_step events s.



(** The client declares [workspace.configuration]. *)
Definition declares_configuration (params : InitializeParams.t) : Prop :=
  exists w,
    ClientCapabilities.workspace (InitializeParams.capabilities params) = Some w /\
    ClientCapabilities.configuration w = Some true.

(** The client declares [workspace.workspaceFolders]. *)
Definition declares_workspaceFolders (params : InitializeParams.t) : Prop :=
  exists w,
    ClientCapabilities.workspace (InitializeParams.capabilities params) = Some w /\
    ClientCapabilities.workspaceFolders w = Some true.

(** The session without the flag for related information. *)
Definition forget_relatedInformation (s : Session) : Session :=
  {| hasConfigurationCapability := hasConfigurationCapability s;
     hasWorkspaceFolderCapability := hasWorkspaceFolderCapability s;
     hasDiagnosticRelatedInformationCapability := false;
     replies := replies s;
     client_register := client_register s;
     workspaceFoldersListeners := workspaceFoldersListeners s;
     console_log := console_log s;
     sent_notifications := sent_notifications s;
     diagnostics_state := diagnostics_state s |}.

(** Two events that differ at most in the [textDocument] capabilities of an
    initialize request. *)
Definition same_but_textDocument (ev ev' : ServerEvent) : Prop :=
  match ev, ev' with
  | Initialize p, Initialize p' =>
      ClientCapabilities.workspace (InitializeParams.capabilities p) =
      ClientCapabilities.workspace (InitializeParams.capabilities p')
  | _, _ => ev = ev'
  end.

(** ** Measures on call sequences *)

Definition count_sends (calls : list Call) : nat :=
  List.length (filter (fun c => negb (is_clear c)) calls).

(** The entries of [l] in the order of their first occurrence. *)
Definition first_occurrences (l : list string) : list string :=
  rev (nodup string_dec (rev l)).

(** Every URI the editor shows a diagnostic for is tracked. *)
Definition shown_tracked (st : Server) : Prop :=
  forall u ds,
    last_published u (connection st) = Some ds -> ds <> [] ->
    In u (fileUrisWithErrors st).

(** Sample capabilities: a client with workspace folders and related
    information, without configuration. *)
Definition sample_params : InitializeParams.t :=
  {| InitializeParams.capabilities :=
       {| ClientCapabilities.workspace :=
            Some {| ClientCapabilities.configuration := None;
                    ClientCapabilities.workspaceFolders := Some true |};
          ClientCapabilities.textDocument :=
            Some {| ClientCapabilities.publishDiagnostics :=
                      Some {| ClientCapabilities.relatedInformation :=
                                Some true |} |} |} |}.

(** The same client without [textDocument] capabilities. *)
Definition sample_params_plain : InitializeParams.t :=
  {| InitializeParams.capabilities :=
       {| ClientCapabilities.workspace :=
            Some {| ClientCapabilities.configuration := None;
                    ClientCapabilities.workspaceFolders := Some true |};
          ClientCapabilities.textDocument := None |} |}.

(** A client with configuration whose workspace folders are switched
    off. *)
Definition sample_params_nofolders : InitializeParams.t :=
  {| InitializeParams.capabilities :=
       {| ClientCapabilities.workspace :=
            Some {| ClientCapabilities.configuration := Some true;
                    ClientCapabilities.workspaceFolders := Some false |};
          ClientCapabilities.textDocument := None |} |}.

(** * Properties *)

(** ** The set *)

Lemma has_In (x : string) (s : JSSet.t) : JSSet.has x s = true <-> In x s.
Proof.
  unfold JSSet.has. rewrite existsb_exists. split.
  - intros [y [Hy Heq]]. apply String.eqb_eq in Heq. now subst.
  - intros H. exists x. split; [assumption | apply String.eqb_refl].
Qed.

Lemma has_false_not_In (x : string) (s : JSSet.t) :
  JSSet.has x s = false <-> ~ In x s.
Proof.
  rewrite <- has_In. destruct (JSSet.has x s); split; congruence.
Qed.

Lemma add_member (x : string) (s : JSSet.t) : In x s -> JSSet.add x s = s.
Proof.
  intros H. unfold JSSet.add. apply has_In in H. now rewrite H.
Qed.

Lemma In_add (x y : string) (s : JSSet.t) :
  In y (JSSet.add x s) <-> y = x \/ In y s.
Proof.
  unfold JSSet.add. destruct (JSSet.has x s) eqn:E.
  - apply has_In in E. split; [now right | intros [-> | H]; assumption].
  - rewrite in_app_iff. simpl. intuition.
Qed.

Lemma NoDup_add (x : string) (s : JSSet.t) :
  NoDup s -> NoDup (JSSet.add x s).
Proof.
  intros H. unfold JSSet.add. destruct (JSSet.has x s) eqn:E; [assumption|].
  apply has_false_not_In in E.
  apply NoDup_rev in H. rewrite <- (rev_involutive (s ++ [x])).
  apply NoDup_rev. rewrite rev_app_distr. simpl.
  constructor; [now rewrite <- in_rev | assumption].
Qed.

Lemma uniq_NoDup (s : JSSet.t) : JSSet.uniq s = true -> NoDup s.
Proof.
  induction s as [|x s IH]; simpl; intros H; constructor.
  - apply andb_prop in H. destruct H as [H _].
    apply has_false_not_In. now apply negb_true_iff.
  - apply IH. now apply andb_prop in H.
Qed.

(** ** The iteration of [clearDiagnostics] *)

Lemma retract_member (u : string) (st : Server) :
  In u (fileUrisWithErrors st) ->
  retract u st =
  {| fileUrisWithErrors := fileUrisWithErrors st;
     connection := connection st ++ [retraction u] |}.
Proof.
  intros H. unfold retract, sendDiagnostics. simpl. now rewrite add_member.
Qed.

(** With fuel for the entries from the cursor on, the iteration visits each
    of them once, in insertion order, and leaves the set as it was. *)
Lemma forEach_from_retract (fuel cursor : nat) (st : Server) :
  List.length (fileUrisWithErrors st) <= cursor + fuel ->
  forEach_from fuel cursor retract st =
  {| fileUrisWithErrors := fileUrisWithErrors st;
     connection :=
       connection st ++ map retraction (skipn cursor (fileUrisWithErrors st)) |}.
Proof.
  revert cursor st. induction fuel as [|fuel IH]; intros cursor st Hlen.
  - simpl. rewrite skipn_all2 by lia. simpl. rewrite app_nil_r.
    now destruct st.
  - simpl. destruct (nth_error (fileUrisWithErrors st) cursor) as [u|] eqn:E.
    + assert (Hin : In u (fileUrisWithErrors st)) by (eapply nth_error_In; eauto).
      rewrite (retract_member u st Hin).
      rewrite IH by (simpl; lia). simpl. f_equal.
      rewrite <- app_assoc. f_equal.
      clear - E. revert cursor E.
      induction (fileUrisWithErrors st) as [|x s IHs]; intros [|c] E;
        simpl in *; try discriminate.
      * now inversion E.
      * now apply IHs.
    + apply nth_error_None in E. rewrite skipn_all2 by lia.
      simpl. rewrite app_nil_r. now destruct st.
Qed.

(** The iteration ends because the cursor passed the last entry, not because
    the fuel ran out: more fuel changes nothing. *)
Lemma forEach_from_fuel_enough (extra : nat) (st : Server) :
  forEach_from (List.length (fileUrisWithErrors st) + extra) 0 retract st =
  forEach_from (List.length (fileUrisWithErrors st)) 0 retract st.
Proof.
  rewrite !forEach_from_retract by lia. reflexivity.
Qed.

Lemma clearDiagnostics_eq (st : Server) :
  clearDiagnostics st =
  {| fileUrisWithErrors := [];
     connection := connection st ++ map retraction (fileUrisWithErrors st) |}.
Proof.
  unfold clearDiagnostics. rewrite forEach_from_retract by lia. reflexivity.
Qed.

(** ** Sequences of calls *)

Lemma run_snoc (calls : list Call) (c : Call) (st : Server) :
  run (calls ++ [c]) st = call c (run calls st).
Proof. unfold run. now rewrite fold_left_app. Qed.

Lemma skipn_length_app {A : Type} (l new : list A) :
  skipn (List.length l) (l ++ new) = new.
Proof. induction l as [|x l IH]; simpl; [reflexivity | exact IH]. Qed.

Lemma last_published_snoc (u : string) (log : list PublishDiagnosticsParams)
    (p : PublishDiagnosticsParams) :
  last_published u (log ++ [p]) =
  if String.eqb (uri p) u then Some (diagnostics p) else last_published u log.
Proof.
  unfold last_published. rewrite rev_app_distr. simpl.
  now destruct (String.eqb (uri p) u).
Qed.

(** How a list that ends in [c] can be cut around one of its elements. *)
Lemma snoc_split {A : Type} (l pre post : list A) (c x : A) :
  l ++ [c] = pre ++ x :: post ->
  (post = [] /\ x = c /\ l = pre) \/
  (exists post', post = post' ++ [c] /\ l = pre ++ x :: post').
Proof.
  destruct post as [|y post] using rev_ind; intros H.
  - left. apply app_inj_tail in H. destruct H as [-> ->]. auto.
  - right. exists post. clear IHpost.
    change (pre ++ x :: post ++ [y]) with (pre ++ (x :: post) ++ [y]) in H.
    rewrite app_assoc in H. apply app_inj_tail in H.
    destruct H as [-> ->]. auto.
Qed.

Lemma run_NoDup (calls : list Call) :
  NoDup (fileUrisWithErrors (run calls initial)).
Proof.
  induction calls as [|c calls IH] using rev_ind.
  - constructor.
  - rewrite run_snoc. destruct c as [p|]; simpl.
    + now apply NoDup_add.
    + constructor.
Qed.

(** A tracked URI was sent after the latest [clearDiagnostics]. *)
Lemma tracked_iff_sent_since_clear (calls : list Call) (u : string) :
  In u (fileUrisWithErrors (run calls initial)) <->
  exists pre p post,
    calls = pre ++ CallSend p :: post /\ uri p = u /\ ~ In CallClear post.
Proof.
  induction calls as [|c calls IH] using rev_ind.
  - simpl. split; [contradiction|].
    intros (pre & p & post & H & _). now destruct pre.
  - rewrite run_snoc. destruct c as [q|]; cbn [call].
    + cbn [sendDiagnostics fileUrisWithErrors]. rewrite In_add, IH. split.
      * intros [-> | (pre & p & post & -> & Hu & Hpost)].
        -- exists calls, q, []. auto.
        -- exists pre, p, (post ++ [CallSend q]). repeat split.
           ++ now rewrite <- app_assoc.
           ++ assumption.
           ++ rewrite in_app_iff. simpl. intros [H | [H | []]];
                [contradiction | discriminate].
      * intros (pre & p & post & H & Hu & Hpost).
        apply snoc_split in H.
        destruct H as [(-> & Hp & ->) | (post' & -> & ->)].
        -- left. now inversion Hp; subst.
        -- right. exists pre, p, post'. repeat split; try assumption.
           intros Hin. apply Hpost. rewrite in_app_iff. now left.
    + rewrite clearDiagnostics_eq. simpl. split; [contradiction|].
      intros (pre & p & post & H & _ & Hpost).
      apply snoc_split in H.
      destruct H as [(_ & Hp & _) | (post' & -> & _)]; [discriminate|].
      apply Hpost. rewrite in_app_iff. right. now left.
Qed.

(** C1, amended: after every sequence of calls, a URI in
    [fileUrisWithErrors] was passed to [sendDiagnostics] by a call that no
    [clearDiagnostics] and no other [sendDiagnostics] for that URI followed,
    and the editor shows the array of that call for it, empty when the call
    passed an empty array. *)
Theorem tracked_shows_latest_send (calls : list Call) (u : string) :
  In u (fileUrisWithErrors (run calls initial)) ->
  exists pre p post,
    calls = pre ++ CallSend p :: post /\ uri p = u /\
    forallb (fun c => negb (is_clear c || sends_for u c)) post = true /\
    last_published u (connection (run calls initial)) = Some (diagnostics p).
Proof.
  induction calls as [|c calls IH] using rev_ind; [contradiction|].
  rewrite run_snoc. destruct c as [q|]; cbn [call].
  - cbn [sendDiagnostics fileUrisWithErrors connection].
    rewrite In_add, last_published_snoc.
    destruct (String.eqb (uri q) u) eqn:E.
    + intros _. apply String.eqb_eq in E.
      exists calls, q, []. auto.
    + intros [-> | Hin]; [now rewrite String.eqb_refl in E|].
      destruct (IH Hin) as (pre & p & post & -> & Hu & Hpost & Hlast).
      exists pre, p, (post ++ [CallSend q]). repeat split.
      * now rewrite <- app_assoc.
      * assumption.
      * rewrite forallb_app, Hpost. simpl. now rewrite E.
      * assumption.
  - rewrite clearDiagnostics_eq. contradiction.
Qed.

Lemma tracked_shows_latest_send_witness :
  In "file://a"
     (fileUrisWithErrors
        (run [publish "file://a" [err1]; publish "file://a" []] initial)) /\
  exists pre p post,
    [publish "file://a" [err1]; publish "file://a" []] =
      pre ++ CallSend p :: post /\
    uri p = "file://a" /\
    forallb (fun c => negb (is_clear c || sends_for "file://a" c)) post = true /\
    last_published "file://a"
      (connection
         (run [publish "file://a" [err1]; publish "file://a" []] initial)) =
    Some (diagnostics p).
Proof.
  split.
  - simpl. left. reflexivity.
  - apply (tracked_shows_latest_send
             [publish "file://a" [err1]; publish "file://a" []] "file://a").
    simpl. left. reflexivity.
Defined.

(** C1 as stated fails: after [sendDiagnostics] of an empty array for
    "file://a" the URI is tracked and the editor shows no diagnostic for
    it. *)
Lemma empty_send_is_tracked :
  ~ (In "file://a"
        (fileUrisWithErrors (run [publish "file://a" []] initial)) ->
     exists ds,
       last_published "file://a"
         (connection (run [publish "file://a" []] initial)) = Some ds /\
       ds <> []).
Proof.
  intros H. destruct H as (ds & Hlast & Hne).
  - simpl. left. reflexivity.
  - vm_compute in Hlast. inversion Hlast. subst. now apply Hne.
Qed.

(** ** [sendDiagnostics] *)

Lemma sent_since_sendDiagnostics (p : PublishDiagnosticsParams) (st : Server) :
  sent_since st (sendDiagnostics p st) = [p].
Proof. unfold sent_since. simpl. apply skipn_length_app. Qed.

Lemma sent_since_sendDiagnostics2 (p q : PublishDiagnosticsParams)
    (st : Server) :
  sent_since st (sendDiagnostics q (sendDiagnostics p st)) = [p; q].
Proof.
  unfold sent_since. simpl. rewrite <- app_assoc. apply skipn_length_app.
Qed.

(** C3 as stated fails: after the two calls "file://a" is still in
    [fileUrisWithErrors]. *)
Lemma scenario_C_still_tracked :
  ~ (List.length
       (connection
          (run [publish "file://a" [err1]; publish "file://a" []] initial))
     = 2 /\
     nth_error
       (connection
          (run [publish "file://a" [err1]; publish "file://a" []] initial)) 1
     = Some {| uri := "file://a"; diagnostics := [] |} /\
     ~ In "file://a"
         (fileUrisWithErrors
            (run [publish "file://a" [err1]; publish "file://a" []] initial))).
Proof.
  intros (_ & _ & H). apply H. simpl. left. reflexivity.
Qed.

(** C3, amended: [sendDiagnostics] for "file://a" with one diagnostic and
    then with none makes exactly two transport calls, the second with an
    empty array, and afterwards "file://a" is still in
    [fileUrisWithErrors]. *)
Theorem scenario_C (e : Diagnostic) (st : Server) :
  sent_since st (run [publish "file://a" [e]; publish "file://a" []] st) =
    [ {| uri := "file://a"; diagnostics := [e] |};
      {| uri := "file://a"; diagnostics := [] |} ] /\
  In "file://a"
     (fileUrisWithErrors
        (run [publish "file://a" [e]; publish "file://a" []] st)).
Proof.
  split.
  - apply sent_since_sendDiagnostics2.
  - cbn [run fold_left call publish sendDiagnostics fileUrisWithErrors uri].
    rewrite !In_add. now left.
Qed.

(** C4 as stated fails: with "file://a" showing an error, two calls with an
    empty array send two notifications for it, not one. *)
Lemma empty_send_twice_sends_twice :
  ~ (List.length
       (notifications_for "file://a"
          (sent_since
             (run [publish "file://a" [err1]] initial)
             (run [publish "file://a" []; publish "file://a" []]
                  (run [publish "file://a" [err1]] initial))))
     = 1).
Proof. vm_compute. discriminate. Qed.

(** C4, amended: two consecutive calls of [sendDiagnostics] with an empty
    array for a URI send two empty-array notifications for it, one per
    call, whether the URI was tracked or not. *)
Theorem empty_send_twice (u : string) (st : Server) :
  sent_since st (run [publish u []; publish u []] st) =
    [retraction u; retraction u] /\
  notifications_for u (sent_since st (run [publish u []; publish u []] st)) =
    [retraction u; retraction u].
Proof.
  assert (H : sent_since st (run [publish u []; publish u []] st) =
              [retraction u; retraction u])
    by apply sent_since_sendDiagnostics2.
  split; [exact H|]. rewrite H. unfold notifications_for. simpl.
  now rewrite String.eqb_refl.
Qed.

(** C5 as stated fails: "file://a" is not tracked at the start, and
    [sendDiagnostics] with an empty array for it sends a notification and
    adds it to the set. *)
Lemma empty_send_untracked_is_forwarded :
  ~ ((~ In "file://a" (fileUrisWithErrors initial) ->
      sent_since initial (call (publish "file://a" []) initial) = [] /\
      fileUrisWithErrors (call (publish "file://a" []) initial) =
        fileUrisWithErrors initial) /\
     (In "file://a" (fileUrisWithErrors initial) ->
      sent_since initial (call (publish "file://a" []) initial) =
        [retraction "file://a"] /\
      ~ In "file://a"
          (fileUrisWithErrors (call (publish "file://a" []) initial)))).
Proof.
  intros [H _]. destruct H as [H _].
  - simpl. tauto.
  - vm_compute in H. discriminate.
Qed.

(** C5, amended: for every URI, tracked or not, [sendDiagnostics] with an
    empty array forwards exactly one empty-array notification; afterwards
    the URI is tracked: the set is unchanged if it was tracked before, and
    has the URI as its newest entry if it was not.  No entry is deleted. *)
Theorem empty_send_forwards_and_tracks (u : string) (st : Server) :
  sent_since st (call (publish u []) st) = [retraction u] /\
  In u (fileUrisWithErrors (call (publish u []) st)) /\
  (In u (fileUrisWithErrors st) ->
   fileUrisWithErrors (call (publish u []) st) = fileUrisWithErrors st) /\
  (~ In u (fileUrisWithErrors st) ->
   fileUrisWithErrors (call (publish u []) st) = fileUrisWithErrors st ++ [u]) /\
  (forall v, In v (fileUrisWithErrors st) ->
             In v (fileUrisWithErrors (call (publish u []) st))).
Proof.
  cbn [call publish]. repeat split.
  - apply sent_since_sendDiagnostics.
  - simpl. rewrite In_add. now left.
  - intros H. simpl. now apply add_member.
  - intros H. simpl. unfold JSSet.add.
    apply has_false_not_In in H. now rewrite H.
  - intros v H. simpl. rewrite In_add. now right.
Qed.

(** ** [clearDiagnostics] *)

Example clearDiagnostics_in_insertion_order :
  clearDiagnostics
    (run [publish "file://b" [err1]; publish "file://a" [];
          publish "file://b" []] initial) =
  {| fileUrisWithErrors := [];
     connection :=
       [ {| uri := "file://b"; diagnostics := [err1] |};
         retraction "file://a"; retraction "file://b";
         retraction "file://b"; retraction "file://a" ] |}.
Proof. reflexivity. Qed.

Lemma sent_since_clearDiagnostics (st : Server) :
  sent_since st (clearDiagnostics st) =
  map retraction (fileUrisWithErrors st).
Proof.
  unfold sent_since. rewrite clearDiagnostics_eq. simpl.
  apply skipn_length_app.
Qed.

Lemma notifications_for_absent (u : string) (s : JSSet.t) :
  ~ In u s -> notifications_for u (map retraction s) = [].
Proof.
  induction s as [|x s IH]; simpl; intros H; [reflexivity|].
  destruct (String.eqb x u) eqn:E.
  - apply String.eqb_eq in E. tauto.
  - apply IH. tauto.
Qed.

Lemma notifications_for_member (u : string) (s : JSSet.t) :
  NoDup s -> In u s -> notifications_for u (map retraction s) = [retraction u].
Proof.
  induction 1 as [|x s Hx Hs IH]; simpl; [contradiction|].
  intros [-> | Hin].
  - rewrite String.eqb_refl. f_equal. now apply notifications_for_absent.
  - destruct (String.eqb x u) eqn:E.
    + apply String.eqb_eq in E. subst. contradiction.
    + now apply IH.
Qed.

(** C6: [clearDiagnostics] sends one empty-array notification for each URI
    in [fileUrisWithErrors] (in the order they were added) and none for any
    other URI, and leaves the set empty. *)
Theorem clearDiagnostics_retracts_each_once (st : Server) :
  NoDup (fileUrisWithErrors st) ->
  sent_since st (clearDiagnostics st) =
    map retraction (fileUrisWithErrors st) /\
  (forall u, In u (fileUrisWithErrors st) ->
     notifications_for u (sent_since st (clearDiagnostics st)) =
       [ {| uri := u; diagnostics := [] |} ]) /\
  (forall u, ~ In u (fileUrisWithErrors st) ->
     notifications_for u (sent_since st (clearDiagnostics st)) = []) /\
  fileUrisWithErrors (clearDiagnostics st) = [].
Proof.
  intros Hs. rewrite sent_since_clearDiagnostics.
  split; [reflexivity | split; [|split]].
  - intros u Hu. now apply notifications_for_member.
  - intros u Hu. now apply notifications_for_absent.
  - reflexivity.
Qed.

Lemma clearDiagnostics_retracts_each_once_witness :
  NoDup (fileUrisWithErrors
           (run [publish "file://a" [err1]; publish "file://b" [];
                 publish "file://a" []] initial)) /\
  sent_since
    (run [publish "file://a" [err1]; publish "file://b" [];
          publish "file://a" []] initial)
    (clearDiagnostics
       (run [publish "file://a" [err1]; publish "file://b" [];
             publish "file://a" []] initial)) =
  [retraction "file://a"; retraction "file://b"].
Proof.
  assert (H : NoDup (fileUrisWithErrors
           (run [publish "file://a" [err1]; publish "file://b" [];
                 publish "file://a" []] initial)))
    by (apply uniq_NoDup; reflexivity).
  split; [exact H|].
  apply (clearDiagnostics_retracts_each_once _ H).
Defined.

(** C7: [clearDiagnostics] followed by [sendDiagnostics] of a non-empty
    array for a URI leaves [fileUrisWithErrors] with that URI as its only
    entry. *)
Theorem clear_then_send_tracks_only_that (st : Server) (u : string)
    (ds : list Diagnostic) :
  ds <> [] ->
  fileUrisWithErrors (run [CallClear; publish u ds] st) = [u].
Proof.
  intros _. cbn [run fold_left call publish].
  rewrite clearDiagnostics_eq. reflexivity.
Qed.

Lemma clear_then_send_tracks_only_that_witness :
  [err1] <> [] /\
  fileUrisWithErrors
    (run [CallClear; publish "file://b" [err1]]
         (run [publish "file://a" [err1]] initial)) = ["file://b"].
Proof.
  assert (H : [err1] <> []) by discriminate.
  split; [exact H|].
  exact (clear_then_send_tracks_only_that
           (run [publish "file://a" [err1]] initial) "file://b" [err1] H).
Defined.

(** C9: after every sequence of calls, [fileUrisWithErrors] holds exactly
    the URIs passed to [sendDiagnostics] since the latest [clearDiagnostics]
    (or since the start), each once, whatever the arrays passed; and
    [sendDiagnostics] forwards one notification, its parameter as it is. *)
Theorem fileUrisWithErrors_is_sent_since_clear (calls : list Call) :
  (forall u,
     In u (fileUrisWithErrors (run calls initial)) <->
     exists pre p post,
       calls = pre ++ CallSend p :: post /\ uri p = u /\
       ~ In CallClear post) /\
  NoDup (fileUrisWithErrors (run calls initial)) /\
  (forall params st,
     connection (sendDiagnostics params st) = connection st ++ [params] /\
     sent_since st (sendDiagnostics params st) = [params]).
Proof.
  split; [|split].
  - intros u. apply tracked_iff_sent_since_clear.
  - apply run_NoDup.
  - intros params st. split; [reflexivity|].
    apply sent_since_sendDiagnostics.
Qed.

(** C10: a second [clearDiagnostics] right after a first one sends nothing
    and leaves the set empty, whatever the set held before the first. *)
Theorem clearDiagnostics_twice (st : Server) :
  sent_since (clearDiagnostics st) (clearDiagnostics (clearDiagnostics st))
    = [] /\
  fileUrisWithErrors (clearDiagnostics (clearDiagnostics st)) = [] /\
  clearDiagnostics (clearDiagnostics st) = clearDiagnostics st.
Proof.
  rewrite sent_since_clearDiagnostics.
  rewrite (clearDiagnostics_eq (clearDiagnostics st)).
  rewrite (clearDiagnostics_eq st). simpl. rewrite app_nil_r. auto.
Qed.

(** ** Listener registrations *)

(** C8: the save listener and the content-change listener (which also fires
    when a document is opened) are registered with the same handler,
    [handleChangeContent], so an event behaves the same on either path,
    whatever the handlers do. *)
Theorem save_and_change_share_handler :
  Routing.registered Routing.onDidChangeContent =
    Some Routing.handleChangeContent /\
  Routing.registered Routing.onDidSave = Some Routing.handleChangeContent /\
  forall (Event World : Type)
         (handlers : Routing.Handler -> Event -> World -> World)
         (e : Event) (w : World),
    Routing.fire Event World handlers Routing.onDidSave e w =
    Routing.fire Event World handlers Routing.onDidChangeContent e w.
Proof.
  split; [reflexivity | split; [reflexivity|]].
  intros Event World handlers e w. reflexivity.
Qed.

(** ** The job engine *)

Example one_job_in_flight :
  let j := {| JobEngine.kind := JobEngine.hover; JobEngine.key := "file://a";
              JobEngine.payload := "3:7"; JobEngine.id := 1 |} in
  let k := {| JobEngine.kind := JobEngine.gotoDefinition;
              JobEngine.key := "file://a";
              JobEngine.payload := "3:7"; JobEngine.id := 2 |} in
  JobEngine.InFlight
    (JobEngine.run
       [JobEngine.CompilerReady; JobEngine.Submit j; JobEngine.Submit k;
        JobEngine.Dispatch; JobEngine.Dispatch]
       JobEngine.init) = [j] /\
  JobEngine.InFlight
    (JobEngine.run
       [JobEngine.CompilerReady; JobEngine.Submit j; JobEngine.Submit k;
        JobEngine.Dispatch; JobEngine.Result 1 (JobEngine.Completed "ok")]
       JobEngine.init) = [k].
Proof. split; reflexivity. Qed.

Lemma init_consistent : JobEngine.consistent JobEngine.init.
Proof. reflexivity. Qed.

Lemma drive_consistent (e : JobEngine.Engine) :
  JobEngine.consistent e -> JobEngine.consistent (JobEngine.drive e).
Proof.
  destruct e as [s q f r]. unfold JobEngine.consistent, JobEngine.drive.
  simpl. intros H.
  destruct s; try assumption.
  destruct q as [|j q]; simpl; [assumption|].
  now rewrite H.
Qed.

Lemma onResult_consistent (i : nat) (r : JobEngine.JobResult)
    (e : JobEngine.Engine) :
  JobEngine.consistent e -> JobEngine.consistent (JobEngine.onResult i r e).
Proof.
  intros H. unfold JobEngine.onResult.
  destruct (existsb _ (JobEngine.InFlight e)); [|assumption].
  apply drive_consistent. unfold JobEngine.consistent. simpl.
  now destruct (JobEngine.state e).
Qed.

Lemma step_consistent (e : JobEngine.Engine) (ev : JobEngine.Event) :
  JobEngine.consistent e -> JobEngine.consistent (JobEngine.step e ev).
Proof.
  intros H. destruct ev as [j| |i r| |]; cbn [JobEngine.step].
  - exact H.
  - now apply drive_consistent.
  - now apply onResult_consistent.
  - unfold JobEngine.onReady, JobEngine.consistent in *.
    destruct (JobEngine.state e) eqn:E; simpl; rewrite ?E; assumption.
  - reflexivity.
Qed.

Lemma run_consistent (events : list JobEngine.Event) (e : JobEngine.Engine) :
  JobEngine.consistent e -> JobEngine.consistent (JobEngine.run events e).
Proof.
  revert e. induction events as [|ev events IH]; intros e H; simpl.
  - exact H.
  - apply IH. now apply step_consistent.
Qed.

(** C2: for every sequence of submit, dispatch, result, ready and exit
    events, and at every point of it, at most one job is outstanding against
    the Compiler Proxy. *)
Theorem at_most_one_in_flight (events : list JobEngine.Event) (n : nat) :
  List.length
    (JobEngine.InFlight (JobEngine.run (firstn n events) JobEngine.init)) <= 1.
Proof.
  pose proof (run_consistent (firstn n events) _ init_consistent) as H.
  unfold JobEngine.consistent in H.
  destruct (JobEngine.state _); try (rewrite H; simpl; lia).
Qed.

(** ** Initialization *)

Lemma and_then_truthy {A : Type} (o : option A) (f : A -> option bool) :
  and_then o (fun a => truthy (f a)) = true <->
  exists a, o = Some a /\ f a = Some true.
Proof.
  destruct o as [a|]; simpl.
  - split.
    + intros H. exists a. split; [reflexivity|].
      destruct (f a) as [[|]|]; simpl in H; congruence.
    + intros (a' & Ha & Hf). inversion Ha; subst. now rewrite Hf.
  - split; [discriminate | intros (a & Ha & _); discriminate].
Qed.

Lemma hasConfiguration_declares (params : InitializeParams.t) (s : Session) :
  hasConfigurationCapability (onInitialize params s) = true <->
  declares_configuration params.
Proof. apply and_then_truthy. Qed.

Lemma hasWorkspaceFolder_declares (params : InitializeParams.t) (s : Session) :
  hasWorkspaceFolderCapability (onInitialize params s) = true <->
  declares_workspaceFolders params.
Proof. apply and_then_truthy. Qed.

Lemma session_run_snoc (events : list ServerEvent) (ev : ServerEvent)
    (s : Session) :
  session_run (events ++ [ev]) s = session_step (session_run events s) ev.
Proof. unfold session_run. now rewrite fold_left_app. Qed.

(** X1: an initialize request followed by the initialized notification
    registers for configuration changes exactly when the client declared
    [workspace.configuration], and installs a workspace-folder listener
    exactly when the client declared [workspace.workspaceFolders], which is
    also exactly when the reply advertised workspace folder support; the
    other capabilities of the reply are the same for every client. *)
Theorem initialize_then_initialized (params : InitializeParams.t)
    (s : Session) :
  (declares_configuration params ->
   client_register (session_run [Initialize params; Initialized] s) =
     client_register s ++ [DidChangeConfigurationNotification]) /\
  (~ declares_configuration params ->
   client_register (session_run [Initialize params; Initialized] s) =
     client_register s) /\
  exists r,
    replies (session_run [Initialize params; Initialized] s) =
      replies s ++ [ {| InitializeResult.capabilities := r |} ] /\
    ServerCapabilities.textDocumentSync r = SyncIncremental /\
    ServerCapabilities.completionProvider r =
      {| ServerCapabilities.resolveProvider := true |} /\
    ServerCapabilities.hoverProvider r = true /\
    ServerCapabilities.definitionProvider r = true /\
    (declares_workspaceFolders params ->
     ServerCapabilities.workspace r =
       Some {| ServerCapabilities.workspaceFolders :=
                 {| ServerCapabilities.supported := true |} |} /\
     workspaceFoldersListeners
       (session_run [Initialize params; Initialized] s) =
       S (workspaceFoldersListeners s)) /\
    (~ declares_workspaceFolders params ->
     ServerCapabilities.workspace r = None /\
     workspaceFoldersListeners
       (session_run [Initialize params; Initialized] s) =
       workspaceFoldersListeners s).
Proof.
  pose proof (hasConfiguration_declares params s) as Hc.
  pose proof (hasWorkspaceFolder_declares params s) as Hw.
  cbn [session_run fold_left session_step].
  unfold onInitialized.
  cbn [client_register workspaceFoldersListeners replies].
  destruct (hasConfigurationCapability (onInitialize params s)) eqn:Ec;
    destruct (hasWorkspaceFolderCapability (onInitialize params s)) eqn:Ew;
    (split; [intros H; try reflexivity; apply Hc in H; discriminate |]);
    (split; [intros H; try reflexivity; exfalso; apply H, Hc; reflexivity |]);
    eexists; (split; [reflexivity|]);
    cbn [ServerCapabilities.textDocumentSync
         ServerCapabilities.completionProvider
         ServerCapabilities.hoverProvider
         ServerCapabilities.definitionProvider
         ServerCapabilities.workspace];
    repeat (split; [reflexivity|]);
    cbn [onInitialize hasWorkspaceFolderCapability] in Ew; rewrite Ew;
    (split;
     [ intros H; try (split; reflexivity); apply Hw in H; discriminate
     | intros H; try (split; reflexivity); exfalso; apply H, Hw; reflexivity ]).
Qed.

Lemma session_step_forget (s s' : Session) (ev ev' : ServerEvent) :
  same_but_textDocument ev ev' ->
  forget_relatedInformation s = forget_relatedInformation s' ->
  forget_relatedInformation (session_step s ev) =
  forget_relatedInformation (session_step s' ev').
Proof.
  intros Hev Hs. destruct s, s'. unfold forget_relatedInformation in Hs.
  cbn in Hs. injection Hs as -> -> -> -> -> -> -> ->.
  destruct ev, ev'; cbn in Hev; try discriminate;
    try (injection Hev as -> ->); try (injection Hev as ->);
    try reflexivity.
  unfold forget_relatedInformation. cbn. now rewrite Hev.
Qed.

(** X2: the [textDocument] capabilities of the client, from which
    [hasDiagnosticRelatedInformationCapability] is set, change nothing the
    server does: two runs whose initialize requests differ only there
    return the same results and make the same registrations, log lines,
    notifications and diagnostics, and track the same URIs. *)
Theorem textDocument_capabilities_unused (events events' : list ServerEvent) :
  Forall2 same_but_textDocument events events' ->
  forget_relatedInformation (session_run events session0) =
  forget_relatedInformation (session_run events' session0).
Proof.
  intros H. unfold session_run.
  assert (G : forall s s',
             forget_relatedInformation s = forget_relatedInformation s' ->
             forget_relatedInformation (fold_left session_step events s) =
             forget_relatedInformation (fold_left session_step events' s')).
  { induction H as [|ev ev' evs evs' Hev _ IH]; intros s s' Hs.
    - exact Hs.
    - simpl. apply IH. now apply session_step_forget. }
  now apply G.
Qed.

Lemma textDocument_capabilities_unused_witness :
  Forall2 same_but_textDocument
    [Initialize sample_params; Initialized; DidChangeWorkspaceFolders]
    [Initialize sample_params_plain; Initialized; DidChangeWorkspaceFolders] /\
  forget_relatedInformation
    (session_run
       [Initialize sample_params; Initialized; DidChangeWorkspaceFolders]
       session0) =
  forget_relatedInformation
    (session_run
       [Initialize sample_params_plain; Initialized; DidChangeWorkspaceFolders]
       session0).
Proof.
  assert (H : Forall2 same_but_textDocument
    [Initialize sample_params; Initialized; DidChangeWorkspaceFolders]
    [Initialize sample_params_plain; Initialized; DidChangeWorkspaceFolders])
    by (repeat constructor).
  split; [exact H|].
  exact (textDocument_capabilities_unused _ _ H).
Defined.



Lemma no_folders_step (s : Session) (ev : ServerEvent) :
  (forall p, ev = Initialize p -> ~ declares_workspaceFolders p) ->
  hasWorkspaceFolderCapability s = false /\
  workspaceFoldersListeners s = 0 /\
  console_log s = [] /\
  Forall (fun r => ServerCapabilities.workspace
                     (InitializeResult.capabilities r) = None) (replies s) ->
  hasWorkspaceFolderCapability (session_step s ev) = false /\
  workspaceFoldersListeners (session_step s ev) = 0 /\
  console_log (session_step s ev) = [] /\
  Forall (fun r => ServerCapabilities.workspace
                     (InitializeResult.capabilities r) = None)
         (replies (session_step s ev)).
Proof.
  intros Hev (Hf & Hl & Hc & Hr). destruct ev as [p| | |t pl|c]; cbn.
  - assert (E : and_then
                  (ClientCapabilities.workspace (InitializeParams.capabilities p))
                  (fun w => truthy (ClientCapabilities.workspaceFolders w))
                = false).
    { destruct (and_then _ _) eqn:E; [|reflexivity].
      exfalso. apply (Hev p eq_refl). now apply and_then_truthy. }
    rewrite E. repeat split; try assumption.
    apply Forall_app. split; [assumption|]. now repeat constructor.
  - rewrite Hf. auto.
  - rewrite Hl, Hc. auto.
  - auto.
  - auto.
Qed.

(** X5: as long as no initialize request comes from a client that declares
    [workspace.workspaceFolders] (also when initialized arrives before any
    initialize request), the server installs no workspace-folder listener,
    logs nothing, and advertises workspace folder support in no reply. *)
Theorem no_workspaceFolders_no_listener (events : list ServerEvent) :
  (forall p, In (Initialize p) events -> ~ declares_workspaceFolders p) ->
  workspaceFoldersListeners (session_run events session0) = 0 /\
  console_log (session_run events session0) = [] /\
  Forall (fun r => ServerCapabilities.workspace
                     (InitializeResult.capabilities r) = None)
         (replies (session_run events session0)).
Proof.
  intros H.
  enough (G : hasWorkspaceFolderCapability (session_run events session0) = false /\
              workspaceFoldersListeners (session_run events session0) = 0 /\
              console_log (session_run events session0) = [] /\
              Forall (fun r => ServerCapabilities.workspace
                                 (InitializeResult.capabilities r) = None)
                     (replies (session_run events session0)))
    by tauto.
  induction events as [|ev events IH] using rev_ind.
  - cbn. auto.
  - rewrite session_run_snoc. apply no_folders_step.
    + intros p ->. apply H. rewrite in_app_iff. right. now left.
    + apply IH. intros p Hp. apply H. rewrite in_app_iff. now left.
Qed.

Lemma no_workspaceFolders_no_listener_witness :
  workspaceFoldersListeners
    (session_run
       [Initialized; Initialize sample_params_nofolders; Initialized;
        DidChangeWorkspaceFolders] session0) = 0 /\
  console_log
    (session_run
       [Initialized; Initialize sample_params_nofolders; Initialized;
        DidChangeWorkspaceFolders] session0) = [].
Proof.
  assert (H : forall p,
             In (Initialize p)
                [Initialized; Initialize sample_params_nofolders; Initialized;
                 DidChangeWorkspaceFolders] ->
             ~ declares_workspaceFolders p).
  { intros p [H | [H | [H | [H | []]]]]; try discriminate.
    injection H as <-. intros (w & Hw & Hf). cbn in Hw.
    injection Hw as <-. discriminate. }
  destruct (no_workspaceFolders_no_listener _ H) as (Hl & Hc & _).
  split; assumption.
Defined.

Lemma no_configuration_step (s : Session) (ev : ServerEvent) :
  (forall p, ev = Initialize p -> ~ declares_configuration p) ->
  hasConfigurationCapability s = false /\ client_register s = [] ->
  hasConfigurationCapability (session_step s ev) = false /\
  client_register (session_step s ev) = [].
Proof.
  intros Hev (Hf & Hr). destruct ev as [p| | |t pl|c]; cbn; auto.
  - split; [|assumption].
    destruct (and_then _ _) eqn:E; [|reflexivity].
    exfalso. apply (Hev p eq_refl). now apply and_then_truthy.
  - now rewrite Hf.
Qed.

(** X6: as long as no initialize request comes from a client that declares
    [workspace.configuration], the server never registers for configuration
    changes with the client. *)
Theorem no_configuration_no_registration (events : list ServerEvent) :
  (forall p, In (Initialize p) events -> ~ declares_configuration p) ->
  client_register (session_run events session0) = [].
Proof.
  intros H.
  enough (G : hasConfigurationCapability (session_run events session0) = false /\
              client_register (session_run events session0) = [])
    by tauto.
  induction events as [|ev events IH] using rev_ind.
  - cbn. auto.
  - rewrite session_run_snoc. apply no_configuration_step.
    + intros p ->. apply H. rewrite in_app_iff. right. now left.
    + apply IH. intros p Hp. apply H. rewrite in_app_iff. now left.
Qed.

Lemma no_configuration_no_registration_witness :
  client_register
    (session_run [Initialized; Initialize sample_params; Initialized] session0)
  = [].
Proof.
  apply no_configuration_no_registration.
  intros p [H | [H | [H | []]]]; try discriminate.
  injection H as <-. intros (w & Hw & Hf). cbn in Hw.
  injection Hw as <-. discriminate.
Defined.

(** ** What the editor shows *)

Lemma has_snoc (u x : string) (s : JSSet.t) :
  JSSet.has u (s ++ [x]) = JSSet.has u s || String.eqb x u.
Proof.
  unfold JSSet.has. rewrite existsb_app. simpl.
  now rewrite orb_false_r, (String.eqb_sym u x).
Qed.

Lemma last_published_retractions (u : string)
    (log : list PublishDiagnosticsParams) (s : JSSet.t) :
  last_published u (log ++ map retraction s) =
  if JSSet.has u s then Some [] else last_published u log.
Proof.
  induction s as [|x s IH] using rev_ind.
  - simpl. now rewrite app_nil_r.
  - rewrite map_app, app_assoc. simpl map.
    rewrite last_published_snoc, has_snoc, IH. simpl.
    destruct (String.eqb x u); [now rewrite orb_true_r|].
    now rewrite orb_false_r.
Qed.

Lemma call_shown_tracked (c : Call) (st : Server) :
  shown_tracked st -> shown_tracked (call c st).
Proof.
  intros H u ds. destruct c as [p|]; cbn [call].
  - cbn [sendDiagnostics connection fileUrisWithErrors].
    rewrite last_published_snoc, In_add.
    destruct (String.eqb (uri p) u) eqn:E.
    + apply String.eqb_eq in E. auto.
    + intros Hl Hne. right. now apply (H u ds).
  - rewrite clearDiagnostics_eq. cbn [connection fileUrisWithErrors].
    rewrite last_published_retractions.
    destruct (JSSet.has u (fileUrisWithErrors st)) eqn:E.
    + intros Hl Hne. inversion Hl. subst. now elim Hne.
    + intros Hl Hne. apply has_false_not_In in E.
      elim E. now apply (H u ds).
Qed.

Lemma run_shown_tracked (calls : list Call) :
  shown_tracked (run calls initial).
Proof.
  induction calls as [|c calls IH] using rev_ind.
  - intros u ds H. discriminate.
  - rewrite run_snoc. now apply call_shown_tracked.
Qed.

(** X7: after every sequence of calls, a URI for which the editor shows at
    least one diagnostic is in [fileUrisWithErrors], so that the next
    [clearDiagnostics] retracts it. *)
Theorem shown_implies_tracked (calls : list Call) (u : string)
    (ds : list Diagnostic) :
  last_published u (connection (run calls initial)) = Some ds ->
  ds <> [] ->
  In u (fileUrisWithErrors (run calls initial)).
Proof. apply run_shown_tracked. Qed.

Lemma shown_implies_tracked_witness :
  last_published "file://b"
    (connection
       (run [publish "file://a" [err1]; CallClear; publish "file://b" [err1];
             publish "file://a" []] initial)) = Some [err1] /\
  [err1] <> [] /\
  In "file://b"
     (fileUrisWithErrors
        (run [publish "file://a" [err1]; CallClear; publish "file://b" [err1];
              publish "file://a" []] initial)).
Proof.
  assert (H1 : last_published "file://b"
    (connection
       (run [publish "file://a" [err1]; CallClear; publish "file://b" [err1];
             publish "file://a" []] initial)) = Some [err1]) by reflexivity.
  assert (H2 : [err1] <> []) by discriminate.
  split; [exact H1 | split; [exact H2|]].
  exact (shown_implies_tracked _ _ _ H1 H2).
Defined.

(** X8: right after [clearDiagnostics], whatever calls came before, the
    editor shows no diagnostic for any URI: every URI was either never
    published or last published with an empty array. *)
Theorem clear_leaves_nothing_shown (calls : list Call) (u : string) :
  last_published u (connection (run (calls ++ [CallClear]) initial)) = None \/
  last_published u (connection (run (calls ++ [CallClear]) initial)) = Some [].
Proof.
  rewrite run_snoc. cbn [call]. rewrite clearDiagnostics_eq.
  cbn [connection]. rewrite last_published_retractions.
  destruct (JSSet.has u (fileUrisWithErrors (run calls initial))) eqn:E;
    [now right|].
  apply has_false_not_In in E.
  destruct (last_published u (connection (run calls initial)))
    as [[|d ds]|] eqn:L; [now right | | now left].
  elim E. apply (run_shown_tracked calls u (d :: ds) L). discriminate.
Qed.

(** ** What reaches the transport *)

Lemma connection_call (c : Call) (st : Server) :
  connection (call c st) =
  connection st ++
  match c with
  | CallSend p => [p]
  | CallClear => map retraction (fileUrisWithErrors st)
  end.
Proof.
  destruct c as [p|]; cbn [call]; [reflexivity|].
  now rewrite clearDiagnostics_eq.
Qed.

(** X9: the server makes up no diagnostics: every notification on the
    transport either is the parameter of a [sendDiagnostics] call, as
    passed, or is an empty array for a URI that a [sendDiagnostics] call
    was made for. *)
Theorem transport_only_carries_what_was_sent (calls : list Call)
    (p : PublishDiagnosticsParams) :
  In p (connection (run calls initial)) ->
  In (CallSend p) calls \/
  (diagnostics p = [] /\
   exists q, In (CallSend q) calls /\ uri q = uri p).
Proof.
  revert p. induction calls as [|c calls IH] using rev_ind; intros p.
  - contradiction.
  - rewrite run_snoc, connection_call, in_app_iff. intros [H | H].
    + destruct (IH p H) as [G | (Hd & q & Hq & Hu)].
      * left. rewrite in_app_iff. now left.
      * right. split; [assumption|]. exists q.
        split; [rewrite in_app_iff; now left | assumption].
    + destruct c as [q|].
      * destruct H as [-> | []]. left. rewrite in_app_iff. right. now left.
      * apply in_map_iff in H. destruct H as (u & <- & Hu).
        apply tracked_iff_sent_since_clear in Hu.
        destruct Hu as (pre & q & post & -> & Hq & _).
        right. split; [reflexivity|]. exists q. split; [|assumption].
        rewrite !in_app_iff. left. right. now left.
Qed.

Lemma transport_only_carries_what_was_sent_witness :
  In (retraction "file://a")
     (connection (run [publish "file://a" [err1]; CallClear] initial)) /\
  (In (CallSend (retraction "file://a"))
      [publish "file://a" [err1]; CallClear] \/
   (diagnostics (retraction "file://a") = [] /\
    exists q, In (CallSend q) [publish "file://a" [err1]; CallClear] /\
              uri q = uri (retraction "file://a"))).
Proof.
  assert (H : In (retraction "file://a")
     (connection (run [publish "file://a" [err1]; CallClear] initial)))
    by (simpl; right; left; reflexivity).
  split; [exact H|].
  exact (transport_only_carries_what_was_sent _ _ H).
Defined.

Lemma length_add (x : string) (s : JSSet.t) :
  List.length (JSSet.add x s) <= S (List.length s).
Proof.
  unfold JSSet.add. destruct (JSSet.has x s); [lia|].
  rewrite length_app. simpl. lia.
Qed.

(** X10: the server sends at most two notifications for each
    [sendDiagnostics] call, the call's own and one later retraction: after
    every sequence of calls, the notifications sent plus the URIs still to
    retract are at most twice the [sendDiagnostics] calls made. *)
Theorem at_most_two_notifications_per_send (calls : list Call) :
  List.length (connection (run calls initial)) +
  List.length (fileUrisWithErrors (run calls initial)) <=
  2 * count_sends calls.
Proof.
  induction calls as [|c calls IH] using rev_ind.
  - simpl. lia.
  - rewrite run_snoc, connection_call. unfold count_sends in *.
    rewrite filter_app, !length_app. destruct c as [p|]; cbn [call].
    + cbn [sendDiagnostics fileUrisWithErrors].
      pose proof (length_add (uri p) (fileUrisWithErrors (run calls initial))).
      simpl. lia.
    + rewrite length_map. simpl. lia.
Qed.


(** ** The order of the tracked URIs *)

Lemma first_occurrences_snoc (l : list string) (x : string) :
  first_occurrences (l ++ [x]) = JSSet.add x (first_occurrences l).
Proof.
  unfold first_occurrences, JSSet.add. rewrite rev_app_distr. simpl.
  destruct (in_dec string_dec x (rev l)) as [Hin | Hin].
  - assert (H : JSSet.has x (rev (nodup string_dec (rev l))) = true).
    { apply has_In. rewrite <- in_rev. now apply nodup_In. }
    now rewrite H.
  - assert (H : JSSet.has x (rev (nodup string_dec (rev l))) = false).
    { apply has_false_not_In. rewrite <- in_rev. now rewrite nodup_In. }
    now rewrite H.
Qed.

Lemma run_sends_first_occurrences (ps : list PublishDiagnosticsParams)
    (st : Server) :
  fileUrisWithErrors st = [] ->
  fileUrisWithErrors (run (map CallSend ps) st) =
  first_occurrences (map uri ps).
Proof.
  intros Hst. induction ps as [|p ps IH] using rev_ind.
  - exact Hst.
  - rewrite !map_app. simpl map. rewrite run_snoc, first_occurrences_snoc.
    cbn [call sendDiagnostics fileUrisWithErrors]. now rewrite IH.
Qed.

(** X12: after [clearDiagnostics] (or from the start), a run of
    [sendDiagnostics] calls leaves in [fileUrisWithErrors] the URIs of the
    calls in the order in which each was first passed, and the next
    [clearDiagnostics] retracts them in that order. *)
Theorem tracked_in_first_send_order (ps : list PublishDiagnosticsParams)
    (st : Server) :
  fileUrisWithErrors (run (map CallSend ps) initial) =
    first_occurrences (map uri ps) /\
  fileUrisWithErrors (run (map CallSend ps) (clearDiagnostics st)) =
    first_occurrences (map uri ps) /\
  sent_since (run (map CallSend ps) (clearDiagnostics st))
             (clearDiagnostics (run (map CallSend ps) (clearDiagnostics st))) =
    map retraction (first_occurrences (map uri ps)).
Proof.
  assert (H : fileUrisWithErrors (run (map CallSend ps) (clearDiagnostics st)) =
              first_occurrences (map uri ps))
    by (apply run_sends_first_occurrences; reflexivity).
  split; [now apply run_sends_first_occurrences|].
  split; [exact H|].
  now rewrite sent_since_clearDiagnostics, H.
Qed.

(** ** The registrations as a whole *)

